(** * Cadence MACB/GEM Ethernet driver (drivers/net/macb.c): descriptor rings

    A shallow embedding of the DMA descriptor-ring core of the driver:
    transmit ([_macb_send]), receive ([_macb_recv]), deferred reclaim
    ([reclaim_rx_buffer], [reclaim_rx_buffers]) and the multi-queue set-up
    ([gmac_init_multi_queues]), followed by the properties the
    specification states about them.

    Conventions.
    - C integers are [Z]; an [unsigned int]/[u32] result that can leave
      the 32-bit range is wrapped with [u32].
    - A descriptor ring is the array of 8-byte [struct macb_dma_desc]
      entries the driver indexes ([list macb_dma_desc]); with 64-bit
      addressing a logical descriptor [i] occupies entries [2*i] (address
      low word and control word) and [2*i+1] (address high word).
    - Memory the CPU and the controller share is modelled as the CPU sees
      it; cache maintenance, DMA mapping, delays and console output are
      recorded in the [events] log, oldest first.
    - An access outside an array is undefined behaviour in C.  The model
      reads a zero descriptor and ignores the write there; the theorems
      that depend on an access carry the bounds that keep it in range. *)

From Stdlib Require Import ZArith Lia Bool String Ascii.
From stdpp Require Import base tactics option list list_numbers gmap.

Local Open Scope Z_scope.

(** ** Machine words and helper macros *)

Definition u32 (x : Z) : Z := x mod 2 ^ 32.

(** Modelled from the spec: [lower_32_bits]/[upper_32_bits] (linux/kernel.h
    is not among the sources) split an address into its primary word and
    its extension word. *)
Definition lower_32_bits (n : Z) : Z := Z.land n 4294967295.
Definition upper_32_bits (n : Z) : Z := Z.land (Z.shiftr n 32) 4294967295.

(** Modelled from the spec: [ALIGN(x, a)] (linux/kernel.h is not among the
    sources) rounds a range boundary up to the alignment [a]. *)
Definition ALIGN (x a : Z) : Z := Z.land (x + (a - 1)) (Z.lnot (a - 1)).

(** Modelled from the spec: [ilog2] (linux/log2.h is not among the sources)
    is the floor of the base-2 logarithm; like [fls n - 1] it is [-1] at 0. *)
Definition ilog2 (n : Z) : Z := if n <=? 0 then -1 else Z.log2 n.

(** ** Constants of macb.c *)

Definition MACB_RX_BUFFER_SIZE : Z := 128.
Definition GEM_RX_BUFFER_SIZE : Z := 2048.
Definition MACB_RX_RING_SIZE : Z := 32.
Definition MACB_TX_RING_SIZE : Z := 16.
Definition MACB_TX_TIMEOUT : Z := 1000.

Definition HW_DMA_CAP_32B : Z := 0.
Definition HW_DMA_CAP_64B : Z := 1.

Definition DMA_DESC_SIZE : Z := 16.
Definition DMA_DESC_BYTES (n : Z) : Z := n * DMA_DESC_SIZE.
Definition MACB_TX_DMA_DESC_SIZE : Z := DMA_DESC_BYTES MACB_TX_RING_SIZE.
Definition MACB_RX_DMA_DESC_SIZE : Z := DMA_DESC_BYTES MACB_RX_RING_SIZE.
Definition MACB_TX_DUMMY_DMA_DESC_SIZE : Z := DMA_DESC_BYTES 1.

Definition RXBUF_FRMLEN_MASK : Z := 4095.
Definition TXBUF_FRMLEN_MASK : Z := 2047.

(** [struct macb_dma_desc { u32 addr; u32 ctrl; }] *)
Record macb_dma_desc := Desc { addr : Z; ctrl : Z }.

Definition sizeof_macb_dma_desc : Z := 8.

#[global] Instance macb_dma_desc_inhabited : Inhabited macb_dma_desc :=
  populate (Desc 0 0).

(** ** Constants of headers that are not part of the sources

    macb.h, net.h, the architecture's cache header, errno.h and
    dma-mapping.h are taken as parameters.  [MACB_name_OFFSET] is the bit
    position of flag [name]; [dma_map_single packet length] is the device
    address the DMA layer returns for a buffer. *)
Class macb_h := {
  MACB_RX_USED_OFFSET : Z;
  MACB_RX_WRAP_OFFSET : Z;
  MACB_RX_SOF_OFFSET : Z;
  MACB_RX_EOF_OFFSET : Z;
  MACB_TX_LAST_OFFSET : Z;
  MACB_TX_WRAP_OFFSET : Z;
  MACB_TX_USED_OFFSET : Z;
  MACB_TX_UNDERRUN_OFFSET : Z;
  MACB_TX_BUF_EXHAUSTED_OFFSET : Z;
  MACB_TE_OFFSET : Z;
  MACB_RE_OFFSET : Z;
  MACB_TSTART_OFFSET : Z;
  MACB_MAX_QUEUES : Z;
  MACB_SEGMENTS_NUM : Z;
  MACB_LOWER_SEGMENTS_NUM : Z;
  ARCH_DMA_MINALIGN : Z;
  PKTALIGN : Z;
  EAGAIN : Z;
  dma_map_single : Z -> Z -> Z
}.

(** Modelled from the spec: macb.h is missing; the data model describes
    ownership, start-of-frame, end-of-frame, wrap and the error flags as
    one-bit flags of a descriptor word, so [MACB_BIT(name)] is the
    single-bit mask [1 << MACB_name_OFFSET]. *)
Definition MACB_BIT (offset : Z) : Z := Z.shiftl 1 offset.

(** ** Device state *)

(** The fields of [struct macb_config] the ring code reads. *)
Record macb_config := Config {
  hw_dma_cap : Z;
  queue_mask : Z;
  disable_queues_at_init : bool;
  allocate_segments_equally : bool
}.

(** Registers the modelled functions access.  The per-queue registers are
    indexed the way [gem_writel_queue_TBQP(macb, value, queue - 1)] is. *)
Inductive reg :=
  | NCR | DCFG6 | SEG_ALLOC_LOWER | SEG_ALLOC_UPPER
  | TBQP_Q (hw_q : Z) | RBQP_Q (hw_q : Z)
  | TBQPH_Q (hw_q : Z) | RBQPH_Q (hw_q : Z).

#[global] Instance reg_eq_dec : EqDecision reg.
Proof. solve_decision. Defined.

(** Where [*packetp] points after a receive. *)
Inductive packet_ptr :=
  | InRxBuffer (offset : Z)     (* macb->rx_buffer + offset *)
  | InNetRxPackets0.            (* net_rx_packets[0] *)

Inductive event :=
  | EvInvalidate (start stop : Z)          (* invalidate_dcache_range *)
  | EvFlush (start stop : Z)               (* flush_dcache_range *)
  | EvDmaMap (packet length : Z)           (* dma_map_single *)
  | EvDmaUnmap (paddr length : Z)          (* dma_unmap_single *)
  | EvUdelay (usec : Z)
  | EvPrintf (text : string).

#[global] Instance event_eq_dec : EqDecision event.
Proof. solve_decision. Defined.

(** [struct macb_device], the memory its pointers refer to, the register
    block, [net_rx_packets[0]] and the event log. *)
Record macb_device := Macb {
  config : macb_config;
  rx_tail : Z;
  tx_head : Z;
  tx_tail : Z;
  next_rx_tail : Z;
  wrapped : bool;
  rx_buffer : list Byte.byte;
  rx_ring : list macb_dma_desc;
  tx_ring : list macb_dma_desc;
  rx_buffer_size : Z;
  rx_buffer_dma : Z;
  rx_ring_dma : Z;
  tx_ring_dma : Z;
  dummy_desc : macb_dma_desc;
  dummy_desc_dma : Z;
  regs : reg -> Z;
  net_rx_packets0 : list Byte.byte;
  events : list event
}.

Definition with_rx_tail (v : Z) (m : macb_device) : macb_device :=
  Macb (config m) v (tx_head m) (tx_tail m) (next_rx_tail m) (wrapped m)
       (rx_buffer m) (rx_ring m) (tx_ring m) (rx_buffer_size m)
       (rx_buffer_dma m) (rx_ring_dma m) (tx_ring_dma m) (dummy_desc m)
       (dummy_desc_dma m) (regs m) (net_rx_packets0 m) (events m).

Definition with_tx_head (v : Z) (m : macb_device) : macb_device :=
  Macb (config m) (rx_tail m) v (tx_tail m) (next_rx_tail m) (wrapped m)
       (rx_buffer m) (rx_ring m) (tx_ring m) (rx_buffer_size m)
       (rx_buffer_dma m) (rx_ring_dma m) (tx_ring_dma m) (dummy_desc m)
       (dummy_desc_dma m) (regs m) (net_rx_packets0 m) (events m).

Definition with_next_rx_tail (v : Z) (m : macb_device) : macb_device :=
  Macb (config m) (rx_tail m) (tx_head m) (tx_tail m) v (wrapped m)
       (rx_buffer m) (rx_ring m) (tx_ring m) (rx_buffer_size m)
       (rx_buffer_dma m) (rx_ring_dma m) (tx_ring_dma m) (dummy_desc m)
       (dummy_desc_dma m) (regs m) (net_rx_packets0 m) (events m).

Definition with_wrapped (v : bool) (m : macb_device) : macb_device :=
  Macb (config m) (rx_tail m) (tx_head m) (tx_tail m) (next_rx_tail m) v
       (rx_buffer m) (rx_ring m) (tx_ring m) (rx_buffer_size m)
       (rx_buffer_dma m) (rx_ring_dma m) (tx_ring_dma m) (dummy_desc m)
       (dummy_desc_dma m) (regs m) (net_rx_packets0 m) (events m).

Definition with_rx_ring (v : list macb_dma_desc) (m : macb_device) : macb_device :=
  Macb (config m) (rx_tail m) (tx_head m) (tx_tail m) (next_rx_tail m) (wrapped m)
       (rx_buffer m) v (tx_ring m) (rx_buffer_size m)
       (rx_buffer_dma m) (rx_ring_dma m) (tx_ring_dma m) (dummy_desc m)
       (dummy_desc_dma m) (regs m) (net_rx_packets0 m) (events m).

Definition with_tx_ring (v : list macb_dma_desc) (m : macb_device) : macb_device :=
  Macb (config m) (rx_tail m) (tx_head m) (tx_tail m) (next_rx_tail m) (wrapped m)
       (rx_buffer m) (rx_ring m) v (rx_buffer_size m)
       (rx_buffer_dma m) (rx_ring_dma m) (tx_ring_dma m) (dummy_desc m)
       (dummy_desc_dma m) (regs m) (net_rx_packets0 m) (events m).

Definition with_dummy_desc (v : macb_dma_desc) (m : macb_device) : macb_device :=
  Macb (config m) (rx_tail m) (tx_head m) (tx_tail m) (next_rx_tail m) (wrapped m)
       (rx_buffer m) (rx_ring m) (tx_ring m) (rx_buffer_size m)
       (rx_buffer_dma m) (rx_ring_dma m) (tx_ring_dma m) v
       (dummy_desc_dma m) (regs m) (net_rx_packets0 m) (events m).

Definition with_regs (v : reg -> Z) (m : macb_device) : macb_device :=
  Macb (config m) (rx_tail m) (tx_head m) (tx_tail m) (next_rx_tail m) (wrapped m)
       (rx_buffer m) (rx_ring m) (tx_ring m) (rx_buffer_size m)
       (rx_buffer_dma m) (rx_ring_dma m) (tx_ring_dma m) (dummy_desc m)
       (dummy_desc_dma m) v (net_rx_packets0 m) (events m).

Definition with_net_rx_packets0 (v : list Byte.byte) (m : macb_device) : macb_device :=
  Macb (config m) (rx_tail m) (tx_head m) (tx_tail m) (next_rx_tail m) (wrapped m)
       (rx_buffer m) (rx_ring m) (tx_ring m) (rx_buffer_size m)
       (rx_buffer_dma m) (rx_ring_dma m) (tx_ring_dma m) (dummy_desc m)
       (dummy_desc_dma m) (regs m) v (events m).

Definition with_events (v : list event) (m : macb_device) : macb_device :=
  Macb (config m) (rx_tail m) (tx_head m) (tx_tail m) (next_rx_tail m) (wrapped m)
       (rx_buffer m) (rx_ring m) (tx_ring m) (rx_buffer_size m)
       (rx_buffer_dma m) (rx_ring_dma m) (tx_ring_dma m) (dummy_desc m)
       (dummy_desc_dma m) (regs m) (net_rx_packets0 m) v.

Definition log (e : event) (m : macb_device) : macb_device :=
  with_events (events m ++ [e]) m.

(** [macb->config->hw_dma_cap & HW_DMA_CAP_64B] *)
Definition dma_cap_64b (m : macb_device) : bool :=
  negb (Z.land (hw_dma_cap (config m)) HW_DMA_CAP_64B =? 0).

(** [macb_writel]/[gem_writel]/[gem_writel_queue_*]: a 32-bit store. *)
Definition writel (r : reg) (v : Z) (m : macb_device) : macb_device :=
  with_regs (fun r' => if decide (r' = r) then u32 v else regs m r') m.

(** Array accesses, indexed by a C unsigned. *)
Definition desc_at (ring : list macb_dma_desc) (i : Z) : macb_dma_desc :=
  ring !!! Z.to_nat i.

Section Driver.
Context {h : macb_h}.

(** ** Cache maintenance of the rings and of the receive buffer *)

Definition macb_invalidate_ring_desc (rx : bool) (m : macb_device) : macb_device :=
  if rx then
    log (EvInvalidate (rx_ring_dma m)
           (ALIGN (rx_ring_dma m + MACB_RX_DMA_DESC_SIZE) PKTALIGN)) m
  else
    log (EvInvalidate (tx_ring_dma m)
           (ALIGN (tx_ring_dma m + MACB_TX_DMA_DESC_SIZE) PKTALIGN)) m.

Definition macb_flush_ring_desc (rx : bool) (m : macb_device) : macb_device :=
  if rx then
    log (EvFlush (rx_ring_dma m)
           (rx_ring_dma m + ALIGN MACB_RX_DMA_DESC_SIZE PKTALIGN)) m
  else
    log (EvFlush (tx_ring_dma m)
           (tx_ring_dma m + ALIGN MACB_TX_DMA_DESC_SIZE PKTALIGN)) m.

Definition macb_invalidate_rx_buffer (m : macb_device) : macb_device :=
  log (EvInvalidate (rx_buffer_dma m)
         (rx_buffer_dma m
          + ALIGN (rx_buffer_size m * MACB_RX_RING_SIZE) PKTALIGN)) m.

Definition RX : bool := true.
Definition TX : bool := false.

(** ** Deferred reclaim of receive descriptors *)

Definition DESC_PER_CACHELINE_32 : Z := ARCH_DMA_MINALIGN / sizeof_macb_dma_desc.
Definition DESC_PER_CACHELINE_64 : Z := ARCH_DMA_MINALIGN / DMA_DESC_SIZE.

(** [macb->rx_ring[k].addr &= ~MACB_BIT(RX_USED)] *)
Definition clear_rx_used (ring : list macb_dma_desc) (k : Z) : list macb_dma_desc :=
  alter (fun d => Desc (Z.land (addr d) (Z.lnot (MACB_BIT MACB_RX_USED_OFFSET)))
                       (ctrl d))
        (Z.to_nat k) ring.

(** The [mask] and [shift] locals of [reclaim_rx_buffer]. *)
Definition reclaim_mask (m : macb_device) : Z :=
  if dma_cap_64b m then u32 (DESC_PER_CACHELINE_64 - 1)
  else u32 (DESC_PER_CACHELINE_32 - 1).

Definition reclaim_shift (m : macb_device) : Z :=
  if dma_cap_64b m then 1 else 0.

Definition reclaim_rx_buffer (m : macb_device) (idx : Z) : macb_device :=
  let mask := reclaim_mask m in
  let shift := reclaim_shift m in
  (* we exit without freeing if idx is not the last descriptor in the cacheline *)
  if negb (Z.land idx mask =? mask) then m
  else
    (* for (i = idx & (~mask); i <= idx; i++) *)
    let first := Z.land idx (u32 (Z.lnot mask)) in
    with_rx_ring
      (foldl (fun ring i => clear_rx_used ring (u32 (Z.shiftl i shift)))
             (rx_ring m) (seqZ first (idx - first + 1)))
      m.

(** [while (i > new_tail) { reclaim_rx_buffer(macb, i); i++;
       if (i >= MACB_RX_RING_SIZE) i = 0; }] *)
Fixpoint reclaim_to_ring_end (fuel : nat) (m : macb_device) (i new_tail : Z)
  : macb_device * Z :=
  match fuel with
  | O => (m, i)
  | S fuel =>
      if new_tail <? i then
        let m := reclaim_rx_buffer m i in
        let i := u32 (i + 1) in
        let i := if MACB_RX_RING_SIZE <=? i then 0 else i in
        reclaim_to_ring_end fuel m i new_tail
      else (m, i)
  end.

(** [while (i < new_tail) { reclaim_rx_buffer(macb, i); i++; }] *)
Definition reclaim_to_new_tail (m : macb_device) (i new_tail : Z) : macb_device :=
  foldl reclaim_rx_buffer m (seqZ i (new_tail - i)).

(** The first loop leaves after at most [MACB_RX_RING_SIZE] rounds (lemma
    [reclaim_to_ring_end_exits]), which is the fuel it is given. *)
Definition reclaim_rx_buffers (m : macb_device) (new_tail : Z) : macb_device :=
  let i := rx_tail m in
  let m := macb_invalidate_ring_desc RX m in
  let '(m, i) := reclaim_to_ring_end (Z.to_nat MACB_RX_RING_SIZE) m i new_tail in
  let m := reclaim_to_new_tail m i new_tail in
  let m := macb_flush_ring_desc RX m in
  with_rx_tail new_tail m.

(** ** Transmit *)

(** [macb_set_addr(macb, &ring[slot], addr)]: with 64-bit addressing the
    high word goes to the [struct macb_dma_desc_64] that follows the
    descriptor, whose [addrh] overlays the next entry's first word. *)
Definition macb_set_addr (m : macb_device) (ring : list macb_dma_desc)
    (slot : Z) (a : Z) : list macb_dma_desc :=
  let ring :=
    if dma_cap_64b m then
      alter (fun d => Desc (upper_32_bits a) (ctrl d)) (Z.to_nat (slot + 1)) ring
    else ring in
  alter (fun d => Desc (lower_32_bits a) (ctrl d)) (Z.to_nat slot) ring.

Definition LF : string := String "010"%char EmptyString.

(** Lines 378-400 of [_macb_send]: build the descriptor, hand it to the
    controller.  Returns the device and the locals [paddr], [tx_head] (the
    ring entry that was written) and [ctrl]. *)
Definition macb_send_submit (m : macb_device) (packet length : Z)
  : macb_device * Z * Z * Z :=
  let head := tx_head m in
  let m := log (EvDmaMap packet length) m in
  let paddr := dma_map_single packet length in
  let c := Z.land length TXBUF_FRMLEN_MASK in
  let c := Z.lor c (MACB_BIT MACB_TX_LAST_OFFSET) in
  let '(c, m) :=
    if head =? MACB_TX_RING_SIZE - 1 then
      (Z.lor c (MACB_BIT MACB_TX_WRAP_OFFSET), with_tx_head 0 m)
    else (c, with_tx_head (u32 (head + 1)) m) in
  let head := if dma_cap_64b m then u32 (head * 2) else head in
  let ring := alter (fun d => Desc (addr d) (u32 c)) (Z.to_nat head) (tx_ring m) in
  let ring := macb_set_addr m ring head paddr in
  let m := with_tx_ring ring m in
  let m := macb_flush_ring_desc TX m in
  let m := writel NCR (Z.lor (Z.lor (MACB_BIT MACB_TE_OFFSET)
                                    (MACB_BIT MACB_RE_OFFSET))
                             (MACB_BIT MACB_TSTART_OFFSET)) m in
  (m, paddr, head, c).

(** The polling loop, [for (i = 0; i <= MACB_TX_TIMEOUT; i++)].  [hw i] is
    the control word the controller has left in the descriptor when the
    ring is invalidated for poll [i].  [n] counts the rounds that remain;
    the result carries the locals [i] and [ctrl] as the loop leaves them. *)
Fixpoint macb_send_poll (n : nat) (hw : Z -> Z) (m : macb_device) (head : Z)
    (i : Z) (c : Z) : macb_device * Z * Z :=
  match n with
  | O => (m, i, c)
  | S n =>
      let m := macb_invalidate_ring_desc TX m in
      let m := with_tx_ring
                 (alter (fun d => Desc (addr d) (u32 (hw i))) (Z.to_nat head)
                        (tx_ring m)) m in
      let c := ctrl (desc_at (tx_ring m) head) in
      if negb (Z.land c (MACB_BIT MACB_TX_USED_OFFSET) =? 0) then (m, i, c)
      else
        let m := log (EvUdelay 1) m in
        macb_send_poll n hw m head (i + 1) c
  end.

Definition _macb_send (hw : Z -> Z) (m : macb_device) (name : string)
    (packet length : Z) : macb_device * Z :=
  let '(m, paddr, head, c) := macb_send_submit m packet length in
  let '(m, i, c) :=
    macb_send_poll (Z.to_nat (MACB_TX_TIMEOUT + 1)) hw m head 0 c in
  let m := log (EvDmaUnmap paddr length) m in
  let m :=
    if i <=? MACB_TX_TIMEOUT then
      let m :=
        if negb (Z.land c (MACB_BIT MACB_TX_UNDERRUN_OFFSET) =? 0) then
          log (EvPrintf (name ++ ": TX underrun" ++ LF)) m
        else m in
      if negb (Z.land c (MACB_BIT MACB_TX_BUF_EXHAUSTED_OFFSET) =? 0) then
        log (EvPrintf (name ++ ": TX buffers exhausted in mid frame" ++ LF)) m
      else m
    else log (EvPrintf (name ++ ": TX timeout" ++ LF)) m in
  (* No one cares anyway *)
  (m, 0).

(** ** Receive *)

(** [memcpy(dst + doff, src + soff, n)] *)
Definition memcpy (dst : list Byte.byte) (doff : Z) (src : list Byte.byte)
    (soff n : Z) : list Byte.byte :=
  list_inserts (Z.to_nat doff)
               (take (Z.to_nat n) (drop (Z.to_nat soff) src)) dst.

(** One round of the [for (;;)] loop of [_macb_recv]: either the function
    returns ([ret] and what was stored through [packetp], if anything), or
    the loop goes round again with new locals. *)
Inductive recv_step :=
  | RecvReturn (m : macb_device) (ret : Z) (packetp : option packet_ptr)
  | RecvAgain (m : macb_device) (next : Z) (flag : bool).

Definition macb_recv_body (m : macb_device) (next : Z) (flag : bool)
  : recv_step :=
  let m := macb_invalidate_ring_desc RX m in
  let next := if dma_cap_64b m then u32 (next * 2) else next in
  if Z.land (addr (desc_at (rx_ring m) next)) (MACB_BIT MACB_RX_USED_OFFSET) =? 0
  then RecvReturn m (- EAGAIN) None
  else
    let status := ctrl (desc_at (rx_ring m) next) in
    let '(m, next, flag) :=
      if negb (Z.land status (MACB_BIT MACB_RX_SOF_OFFSET) =? 0) then
        let '(next, flag) :=
          if dma_cap_64b m then (next / 2, true) else (next, flag) in
        let m :=
          if negb (next =? rx_tail m) then reclaim_rx_buffers m next else m in
        (with_wrapped false m, next, flag)
      else (m, next, flag) in
    if negb (Z.land status (MACB_BIT MACB_RX_EOF_OFFSET) =? 0) then
      let buffer := rx_buffer_size m * rx_tail m in
      let length := Z.land status RXBUF_FRMLEN_MASK in
      let m := macb_invalidate_rx_buffer m in
      let '(m, packet) :=
        if wrapped m then
          let headlen :=
            u32 (rx_buffer_size m * u32 (MACB_RX_RING_SIZE - rx_tail m)) in
          let taillen := u32 (length - headlen) in
          let pkt := memcpy (net_rx_packets0 m) 0 (rx_buffer m) buffer headlen in
          let pkt := memcpy pkt headlen (rx_buffer m) 0 taillen in
          (with_net_rx_packets0 pkt m, InNetRxPackets0)
        else (m, InRxBuffer buffer) in
      let next := if dma_cap_64b m && negb flag then next / 2 else next in
      let next := u32 (next + 1) in
      let next := if MACB_RX_RING_SIZE <=? next then 0 else next in
      RecvReturn (with_next_rx_tail next m) length (Some packet)
    else
      let '(next, flag) :=
        if dma_cap_64b m then ((if negb flag then next / 2 else next), false)
        else (next, flag) in
      let next := u32 (next + 1) in
      if MACB_RX_RING_SIZE <=? next then RecvAgain (with_wrapped true m) 0 flag
      else RecvAgain m next flag.

(** The loop can go round for ever (a ring whose descriptors are all
    filled and none of which ends a frame), so it runs on fuel: [None]
    means the fuel ran out before the function returned. *)
Fixpoint macb_recv_loop (fuel : nat) (m : macb_device) (next : Z) (flag : bool)
  : option (macb_device * Z * option packet_ptr) :=
  match fuel with
  | O => None
  | S fuel =>
      match macb_recv_body m next flag with
      | RecvReturn m ret packetp => Some (m, ret, packetp)
      | RecvAgain m next flag => macb_recv_loop fuel m next flag
      end
  end.

Definition _macb_recv (fuel : nat) (m : macb_device)
  : option (macb_device * Z * option packet_ptr) :=
  let next := next_rx_tail m in
  let m := with_wrapped false m in
  macb_recv_loop fuel m next false.

(** The driver-model entry points. *)
Definition macb_recv (fuel : nat) (m : macb_device)
  : option (macb_device * Z * option packet_ptr) :=
  let m := with_next_rx_tail (rx_tail m) m in
  let m := with_wrapped false m in
  _macb_recv fuel m.

Definition macb_free_pkt (m : macb_device) : macb_device * Z :=
  (reclaim_rx_buffers m (next_rx_tail m), 0).

(** ** Multi-queue set-up *)

(** The local [queue_mask] of [gmac_init_multi_queues]. *)
Definition gmac_queue_mask (m : macb_device) : Z :=
  let qmask := Z.land (regs m DCFG6) 65535 in
  let qmask :=
    if negb (queue_mask (config m) =? 0) then
      Z.land qmask (u32 (queue_mask (config m)))
    else qmask in
  Z.lor qmask 1.

(** [for (i = 1; i < MACB_MAX_QUEUES; i++) if (queue_mask & (1 << i)) num_queues++;] *)
Definition gmac_num_queues (qmask : Z) : Z :=
  foldl (fun num_queues i =>
           if negb (Z.land qmask (Z.shiftl 1 i) =? 0) then num_queues + 1
           else num_queues)
        1 (seqZ 1 (MACB_MAX_QUEUES - 1)).

(** The body of the second loop, for one [i]. *)
Definition gmac_queue_setup (qmask paddr seg_per_queue : Z)
    (st : macb_device * Z * Z) (i : Z) : macb_device * Z * Z :=
  let '(m, seg_alloc_lower, seg_alloc_upper) := st in
  if Z.land qmask (Z.shiftl 1 i) =? 0 then st (* continue *)
  else
    let m := writel (TBQP_Q (i - 1)) (lower_32_bits paddr) m in
    let m := writel (RBQP_Q (i - 1)) (lower_32_bits paddr) m in
    let m :=
      if dma_cap_64b m then
        let m := writel (TBQPH_Q (i - 1)) (upper_32_bits paddr) m in
        writel (RBQPH_Q (i - 1)) (upper_32_bits paddr) m
      else m in
    if i <? MACB_LOWER_SEGMENTS_NUM then
      (m, Z.lor seg_alloc_lower (Z.shiftl seg_per_queue (i * 4)), seg_alloc_upper)
    else
      (m, seg_alloc_lower,
       Z.lor seg_alloc_upper
             (Z.shiftl seg_per_queue ((i - MACB_LOWER_SEGMENTS_NUM) * 4))).

Definition gmac_init_multi_queues (m : macb_device) : macb_device * Z :=
  let m :=
    if disable_queues_at_init (config m) then
      (* disable all queues first *)
      foldl (fun m i => writel (RBQP_Q (i - 1)) 1 (writel (TBQP_Q (i - 1)) 1 m))
            m (seqZ 1 (MACB_MAX_QUEUES - 1))
    else m in
  (* bit 0 is never set but queue 0 always exists *)
  let qmask := gmac_queue_mask m in
  let num_queues := gmac_num_queues qmask in
  let m := with_dummy_desc (Desc 0 (u32 (MACB_BIT MACB_TX_USED_OFFSET))) m in
  let m := log (EvFlush (dummy_desc_dma m)
                  (dummy_desc_dma m
                   + ALIGN MACB_TX_DUMMY_DMA_DESC_SIZE PKTALIGN)) m in
  let paddr := dummy_desc_dma m in
  (* round down the value, such that we won't overflow num of segments *)
  let seg_per_queue := ilog2 (Z.quot MACB_SEGMENTS_NUM num_queues) in
  let '(m, seg_alloc_lower, seg_alloc_upper) :=
    foldl (gmac_queue_setup qmask paddr seg_per_queue) (m, 0, 0)
          (seqZ 1 (num_queues - 1)) in
  let m :=
    if allocate_segments_equally (config m) then
      let m := writel SEG_ALLOC_LOWER seg_alloc_lower m in
      writel SEG_ALLOC_UPPER seg_alloc_upper m
    else m in
  (m, 0).

End Driver.

(** ** A concrete build *)

(** Header values of a typical build: the Cadence descriptor and NCR bit
    layout, 64-byte cache lines, sixteen queues and packet-buffer segments,
    identity DMA mapping. *)
Definition example_h : macb_h := {|
  MACB_RX_USED_OFFSET := 0;
  MACB_RX_WRAP_OFFSET := 1;
  MACB_RX_SOF_OFFSET := 14;
  MACB_RX_EOF_OFFSET := 15;
  MACB_TX_LAST_OFFSET := 15;
  MACB_TX_WRAP_OFFSET := 30;
  MACB_TX_USED_OFFSET := 31;
  MACB_TX_UNDERRUN_OFFSET := 28;
  MACB_TX_BUF_EXHAUSTED_OFFSET := 27;
  MACB_TE_OFFSET := 3;
  MACB_RE_OFFSET := 2;
  MACB_TSTART_OFFSET := 9;
  MACB_MAX_QUEUES := 16;
  MACB_SEGMENTS_NUM := 16;
  MACB_LOWER_SEGMENTS_NUM := 8;
  ARCH_DMA_MINALIGN := 64;
  PKTALIGN := 64;
  EAGAIN := 11;
  dma_map_single := fun packet _ => packet
|}.

(** A device as [_macb_eth_initialize] and [_macb_init] leave it: rings of
    64 entries (512 bytes each), the wrap marker on the last receive
    descriptor, all indices at 0. *)
Definition ring_init (cap64 : bool) (n : Z) (mk : Z -> macb_dma_desc)
  : list macb_dma_desc :=
  if cap64 then
    flat_map (fun i => [mk i; Desc 0 0]) (seqZ 0 n)
  else (mk <$> seqZ 0 n) ++ replicate (Z.to_nat n) (Desc 0 0).

Definition example_device_with (cfg : macb_config) (size dcfg6 : Z)
  : macb_device := {|
  config := cfg;
  rx_tail := 0; tx_head := 0; tx_tail := 0; next_rx_tail := 0;
  wrapped := false;
  rx_buffer := replicate (Z.to_nat (size * MACB_RX_RING_SIZE)) Byte.x00;
  rx_ring := ring_init (negb (Z.land (hw_dma_cap cfg) 1 =? 0)) MACB_RX_RING_SIZE
               (fun i => Desc (u32 (Z.lor (65536 + i * size)
                                          (if i =? 31 then 2 else 0))) 0);
  tx_ring := ring_init (negb (Z.land (hw_dma_cap cfg) 1 =? 0)) MACB_TX_RING_SIZE
               (fun i => Desc 0 (if i =? 15 then 3221225472 else 2147483648));
  rx_buffer_size := size;
  rx_buffer_dma := 65536;
  rx_ring_dma := 4096;
  tx_ring_dma := 8192;
  dummy_desc := Desc 0 0;
  dummy_desc_dma := 12288;
  regs := fun r => if decide (r = DCFG6) then dcfg6 else 0;
  net_rx_packets0 := replicate 1536 Byte.x00;
  events := []
|}.

(** The configuration of [hailo15_config] when [cap] is [HW_DMA_CAP_64B]:
    queue mask 3, queues disabled at init, segments allocated equally. *)
Definition example_device (cap : Z) (size : Z) : macb_device :=
  example_device_with (Config cap 3 true true) size 0.

(** * Properties *)

(** ** Bits and words *)

Lemma MACB_BIT_pow2 (k : Z) : 0 <= k -> MACB_BIT k = 2 ^ k.
Proof. intros Hk. unfold MACB_BIT. now rewrite Z.shiftl_1_l. Qed.





Lemma u32_small (x : Z) : 0 <= x < 2 ^ 32 -> u32 x = x.
Proof. intros. unfold u32. now apply Z.mod_small. Qed.

Lemma u32_range (x : Z) : 0 <= u32 x < 2 ^ 32.
Proof. unfold u32. apply Z.mod_pos_bound. lia. Qed.

(** ** Folding over a loop *)


Section Reclaim.
Context {h : macb_h}.

(** What a reclaim may do to a ring entry: nothing, or clear the
    ownership bit of its address word. *)
Definition rx_used_cleared (d : macb_dma_desc) : macb_dma_desc :=
  Desc (Z.land (addr d) (Z.lnot (MACB_BIT MACB_RX_USED_OFFSET))) (ctrl d).


(** The fields a reclaim leaves alone: all but [rx_tail], the receive
    ring and the event log. *)
Definition reclaim_frame (m m' : macb_device) : Prop :=
  config m' = config m /\ tx_head m' = tx_head m /\ tx_tail m' = tx_tail m
  /\ next_rx_tail m' = next_rx_tail m /\ wrapped m' = wrapped m
  /\ rx_buffer m' = rx_buffer m /\ tx_ring m' = tx_ring m
  /\ rx_buffer_size m' = rx_buffer_size m
  /\ rx_buffer_dma m' = rx_buffer_dma m /\ rx_ring_dma m' = rx_ring_dma m
  /\ tx_ring_dma m' = tx_ring_dma m /\ dummy_desc m' = dummy_desc m
  /\ dummy_desc_dma m' = dummy_desc_dma m /\ regs m' = regs m
  /\ net_rx_packets0 m' = net_rx_packets0 m.






Lemma reclaim_frame_refl m : reclaim_frame m m.
Proof. now repeat split. Qed.








(** The first loop of [reclaim_rx_buffers] has left by the time its fuel
    is used up: on return its condition [i > new_tail] is false. *)
Lemma reclaim_to_ring_end_exits fuel m i new_tail :
  0 <= new_tail -> 0 <= i < 2 ^ 32 ->
  (if new_tail <? i then if i <? MACB_RX_RING_SIZE then MACB_RX_RING_SIZE - i else 1
   else 0) <= Z.of_nat fuel ->
  snd (reclaim_to_ring_end fuel m i new_tail) <= new_tail.
Proof.
  intros Hnt. revert m i. induction fuel as [|fuel IH]; intros m i Hi Hfuel.
  - simpl. destruct (Z.ltb_spec new_tail i); [|lia].
    destruct (Z.ltb_spec i MACB_RX_RING_SIZE); unfold MACB_RX_RING_SIZE in *; lia.
  - simpl. destruct (Z.ltb_spec new_tail i) as [Hlt|Hge]; simpl; [|lia].
    apply IH.
    + destruct (Z.leb_spec MACB_RX_RING_SIZE (u32 (i + 1))); [lia|].
      pose proof (u32_range (i + 1)). lia.
    + unfold MACB_RX_RING_SIZE in *.
      destruct (Z.ltb_spec i 32) as [Hi32|Hi32].
      * rewrite u32_small by lia.
        destruct (Z.leb_spec 32 (i + 1)).
        -- destruct (Z.ltb_spec new_tail 0); lia.
        -- destruct (Z.ltb_spec new_tail (i + 1)); [|lia].
           destruct (Z.ltb_spec (i + 1) 32); lia.
      * destruct (Z.leb_spec 32 (u32 (i + 1))) as [|Hs].
        -- destruct (Z.ltb_spec new_tail 0); lia.
        -- assert (Hz : u32 (i + 1) = 0).
           { destruct (Z.eq_dec i (2 ^ 32 - 1)) as [->|Hne]; [reflexivity|].
             rewrite u32_small in Hs |- * by lia. lia. }
           rewrite Hz. destruct (Z.ltb_spec new_tail 0); lia.
Qed.

End Reclaim.

(** ** Reclaim touches the ownership bit and the reclaim tail only *)




(** ** Deferred reclaim, one cache line at a time *)

Section Cacheline.
Context {h : macb_h}.





(** The indices [reclaim_rx_buffers] hands to [reclaim_rx_buffer], in call
    order, for a reclaim tail below the ring size. *)
Definition reclaim_visits (tail new_tail : Z) : list Z :=
  if new_tail <? tail then
    seqZ tail (MACB_RX_RING_SIZE - tail) ++ seqZ 0 new_tail
  else seqZ tail (new_tail - tail).




(** *** Arithmetic of the line mask *)





End Cacheline.

Section ReclaimLine.
Context {h : macb_h}.




Lemma rx_used_cleared_default :
  rx_used_cleared (inhabitant : macb_dma_desc) = inhabitant.
Proof. reflexivity. Qed.




End ReclaimLine.

Section ReclaimPass.
Context {h : macb_h}.




Lemma reclaim_visits_bounds tail new_tail i :
  0 <= tail < MACB_RX_RING_SIZE -> 0 <= new_tail < MACB_RX_RING_SIZE ->
  i ∈ reclaim_visits tail new_tail -> 0 <= i < MACB_RX_RING_SIZE.
Proof.
  unfold reclaim_visits, MACB_RX_RING_SIZE. intros Ht Hnt.
  destruct (Z.ltb_spec new_tail tail).
  - rewrite elem_of_app, !elem_of_seqZ. lia.
  - rewrite elem_of_seqZ. lia.
Qed.


(** *** The monitor accepts every pass *)











End ReclaimPass.




(** ** Transmit *)

Section Send.
Context {h : macb_h}.

Lemma testbit_MACB_BIT (k b : Z) : 0 <= k -> Z.testbit (MACB_BIT k) b = (k =? b).
Proof. intros Hk. now rewrite MACB_BIT_pow2, Z.pow2_bits_eqb by lia. Qed.

(** The ring entry of the descriptor at the producer index. *)
Definition tx_slot (m : macb_device) : Z :=
  if dma_cap_64b m then 2 * tx_head m else tx_head m.

(** The control word [_macb_send] builds at producer index [head]. *)
Definition tx_ctrl (head length : Z) : Z :=
  let c := Z.lor (Z.land length TXBUF_FRMLEN_MASK)
                 (MACB_BIT MACB_TX_LAST_OFFSET) in
  if head =? MACB_TX_RING_SIZE - 1 then Z.lor c (MACB_BIT MACB_TX_WRAP_OFFSET)
  else c.

Definition tx_flags_ok : Prop :=
  11 <= MACB_TX_LAST_OFFSET < 32 /\ 11 <= MACB_TX_WRAP_OFFSET < 32
  /\ MACB_TX_LAST_OFFSET <> MACB_TX_WRAP_OFFSET.

Lemma tx_ctrl_testbit head length b :
  tx_flags_ok -> 0 <= b ->
  Z.testbit (tx_ctrl head length) b
  = (Z.testbit length b && (b <? 11))
    || (MACB_TX_LAST_OFFSET =? b)
    || ((head =? MACB_TX_RING_SIZE - 1) && (MACB_TX_WRAP_OFFSET =? b)).
Proof.
  intros (HL & HW & Hne) Hb. unfold tx_ctrl, TXBUF_FRMLEN_MASK.
  change 2047 with (Z.ones 11).
  destruct (head =? MACB_TX_RING_SIZE - 1);
    rewrite ?Z.lor_spec, Z.land_spec, !testbit_MACB_BIT,
      Z.testbit_ones_nonneg by lia; simpl;
    now rewrite ?orb_false_r.
Qed.

Lemma tx_ctrl_range head length :
  tx_flags_ok -> 0 <= tx_ctrl head length < 2 ^ 32.
Proof.
  intros Hok.
  assert (Hhi : forall b, 32 <= b -> Z.testbit (tx_ctrl head length) b = false).
  { intros b Hb. rewrite tx_ctrl_testbit by (auto; lia).
    destruct Hok as (HL & HW & _).
    destruct (Z.ltb_spec b 11); [lia|].
    destruct (Z.eqb_spec MACB_TX_LAST_OFFSET b); [lia|].
    destruct (Z.eqb_spec MACB_TX_WRAP_OFFSET b); [lia|].
    now rewrite !andb_false_r. }
  assert (Hnn : 0 <= tx_ctrl head length).
  { unfold tx_ctrl. destruct (head =? _); rewrite ?Z.lor_nonneg, Z.land_nonneg;
      unfold MACB_BIT; rewrite ?Z.shiftl_nonneg; unfold TXBUF_FRMLEN_MASK; lia. }
  split; [exact Hnn|].
  destruct (Z.eq_dec (tx_ctrl head length) 0) as [->|Hnz]; [lia|].
  apply Z.log2_lt_pow2; [lia|].
  destruct (Z.ltb_spec (Z.log2 (tx_ctrl head length)) 32); [assumption|].
  exfalso. pose proof (Z.bit_log2 (tx_ctrl head length) ltac:(lia)) as Hbit.
  rewrite Hhi in Hbit by assumption. discriminate.
Qed.

(** What [macb_send_submit] returns, spelled out. *)
Lemma macb_send_submit_eq m packet length :
  macb_send_submit m packet length
  = (writel NCR (Z.lor (Z.lor (MACB_BIT MACB_TE_OFFSET)
                              (MACB_BIT MACB_RE_OFFSET))
                       (MACB_BIT MACB_TSTART_OFFSET))
       (macb_flush_ring_desc TX
          (with_tx_ring
             (macb_set_addr m
                (alter (fun d => Desc (addr d) (u32 (tx_ctrl (tx_head m) length)))
                       (Z.to_nat (if dma_cap_64b m then u32 (tx_head m * 2)
                                  else tx_head m))
                       (tx_ring m))
                (if dma_cap_64b m then u32 (tx_head m * 2) else tx_head m)
                (dma_map_single packet length))
             (with_tx_head
                (if tx_head m =? MACB_TX_RING_SIZE - 1 then 0
                 else u32 (tx_head m + 1))
                (log (EvDmaMap packet length) m)))),
     dma_map_single packet length,
     if dma_cap_64b m then u32 (tx_head m * 2) else tx_head m,
     tx_ctrl (tx_head m) length).
Proof.
  unfold macb_send_submit, tx_ctrl.
  destruct (tx_head m =? MACB_TX_RING_SIZE - 1); reflexivity.
Qed.

(** The polling loop changes the control word of the polled entry and
    nothing else of the ring; it logs invalidates and delays only. *)
Definition poll_event (e : event) : Prop :=
  (exists a b, e = EvInvalidate a b) \/ e = EvUdelay 1.

Definition poll_inv (head : Z) (m m' : macb_device) : Prop :=
  tx_head m' = tx_head m
  /\ length (tx_ring m') = length (tx_ring m)
  /\ (forall k : nat, k <> Z.to_nat head -> tx_ring m' !! k = tx_ring m !! k)
  /\ addr (desc_at (tx_ring m') head) = addr (desc_at (tx_ring m) head)
  /\ exists evs, events m' = events m ++ evs /\ Forall poll_event evs.

Lemma poll_inv_refl head m : poll_inv head m m.
Proof.
  repeat split; auto. exists []. split; [now rewrite app_nil_r|constructor].
Qed.

Lemma poll_inv_trans head m1 m2 m3 :
  poll_inv head m1 m2 -> poll_inv head m2 m3 -> poll_inv head m1 m3.
Proof.
  intros (T1 & L1 & R1 & A1 & e1 & E1 & F1) (T2 & L2 & R2 & A2 & e2 & E2 & F2).
  split; [congruence|]. split; [congruence|]. split.
  { intros k Hk. rewrite R2, R1 by assumption. reflexivity. }
  split; [congruence|].
  exists (e1 ++ e2). split.
  - rewrite E2, E1. now rewrite app_assoc.
  - apply Forall_app. now split.
Qed.

Lemma poll_round_inv (hw : Z -> Z) head i m :
  poll_inv head m
    (with_tx_ring
       (alter (fun d => Desc (addr d) (u32 (hw i))) (Z.to_nat head)
              (tx_ring (macb_invalidate_ring_desc TX m)))
       (macb_invalidate_ring_desc TX m)).
Proof.
  split; [reflexivity|]. split; [apply length_alter|]. split.
  { intros k Hk. simpl. now rewrite list_lookup_alter_ne by congruence. }
  split.
  { unfold desc_at. simpl. rewrite !list_lookup_total_alt, list_lookup_alter_eq.
    destruct (tx_ring m !! Z.to_nat head); reflexivity. }
  eexists. split; [reflexivity|].
  constructor; [|constructor]. left. eauto.
Qed.

Lemma macb_send_poll_inv n hw m head i c :
  poll_inv head m (fst (fst (macb_send_poll n hw m head i c))).
Proof.
  revert m i c. induction n as [|n IH]; intros m i c; cbn [macb_send_poll].
  - apply poll_inv_refl.
  - destruct (negb _).
    + apply poll_round_inv.
    + eapply poll_inv_trans; [|apply IH].
      eapply poll_inv_trans; [apply poll_round_inv|].
      split; [reflexivity|]. split; [reflexivity|].
      split; [reflexivity|]. split; [reflexivity|].
      eexists. split; [reflexivity|]. constructor; [now right|constructor].
Qed.

(** What is logged after the polling loop: the unmap, then the messages. *)
Definition send_messages (name : string) (i c : Z) : list event :=
  if i <=? MACB_TX_TIMEOUT then
    (if negb (Z.land c (MACB_BIT MACB_TX_UNDERRUN_OFFSET) =? 0)
     then [EvPrintf (name ++ ": TX underrun" ++ LF)] else [])
    ++ (if negb (Z.land c (MACB_BIT MACB_TX_BUF_EXHAUSTED_OFFSET) =? 0)
        then [EvPrintf (name ++ ": TX buffers exhausted in mid frame" ++ LF)]
        else [])
  else [EvPrintf (name ++ ": TX timeout" ++ LF)].

Lemma macb_send_structure hw m name packet length :
  forall m1 paddr head c0 m2 i c,
  macb_send_submit m packet length = (m1, paddr, head, c0) ->
  macb_send_poll (Z.to_nat (MACB_TX_TIMEOUT + 1)) hw m1 head 0 c0 = (m2, i, c) ->
  _macb_send hw m name packet length
  = (with_events (events m2 ++ EvDmaUnmap paddr length :: send_messages name i c)
                 m2, 0).
Proof.
  intros m1 paddr head c0 m2 i c Hs Hp. unfold _macb_send, send_messages.
  rewrite Hs, Hp.
  destruct (i <=? MACB_TX_TIMEOUT);
    repeat (destruct (negb _));
    unfold log, with_events; simpl; rewrite <- ?app_assoc; reflexivity.
Qed.

Lemma events_log e m : events (log e m) = events m ++ [e].
Proof. reflexivity. Qed.

Lemma events_writel r v m : events (writel r v m) = events m.
Proof. reflexivity. Qed.

Lemma events_with_tx_ring r m : events (with_tx_ring r m) = events m.
Proof. reflexivity. Qed.

Lemma events_with_tx_head v m : events (with_tx_head v m) = events m.
Proof. reflexivity. Qed.

Lemma events_flush_tx m :
  events (macb_flush_ring_desc TX m)
  = events m ++ [EvFlush (tx_ring_dma m)
                   (tx_ring_dma m + ALIGN MACB_TX_DMA_DESC_SIZE PKTALIGN)].
Proof. reflexivity. Qed.

Lemma macb_send_submit_events m packet length :
  events (fst (fst (fst (macb_send_submit m packet length))))
  = events m
    ++ [EvDmaMap packet length;
        EvFlush (tx_ring_dma m)
                (tx_ring_dma m + ALIGN MACB_TX_DMA_DESC_SIZE PKTALIGN)].
Proof.
  rewrite macb_send_submit_eq. cbn [fst].
  rewrite events_writel, events_flush_tx, events_with_tx_ring,
    events_with_tx_head, events_log, <- app_assoc.
  reflexivity.
Qed.

Lemma macb_send_submit_dma m packet length :
  tx_ring_dma (fst (fst (fst (macb_send_submit m packet length))))
  = tx_ring_dma m.
Proof. rewrite macb_send_submit_eq. reflexivity. Qed.

End Send.

Lemma macb_send_snd `{macb_h} (hw : Z -> Z) (m : macb_device)
    (name : string) (packet length : Z) :
  snd (_macb_send hw m name packet length) = 0.
Proof.
  destruct (macb_send_submit m packet length) as [[[m1 paddr] head] c0] eqn:Hs.
  destruct (macb_send_poll (Z.to_nat (MACB_TX_TIMEOUT + 1)) hw m1 head 0 c0)
    as [[m2 i] c] eqn:Hp.
  rewrite (macb_send_structure hw m name packet length _ _ _ _ _ _ _ Hs Hp).
  reflexivity.
Qed.

(** C9.  Whatever the buffer, the length and the controller's answers
    (completion, underrun, buffers exhausted, or no answer within the
    polls), [_macb_send] returns 0. *)
Theorem macb_send_returns_zero `{macb_h} (hw : Z -> Z) (m : macb_device)
    (name : string) (packet length : Z) :
  snd (_macb_send hw m name packet length) = 0.
Proof. apply macb_send_snd. Qed.

Definition printf_event (e : event) : Prop := exists text, e = EvPrintf text.

Lemma send_messages_printf `{macb_h} name i c :
  Forall printf_event (send_messages name i c).
Proof.
  unfold send_messages.
  destruct (i <=? MACB_TX_TIMEOUT); repeat (destruct (negb _)); simpl;
    repeat constructor; eexists; reflexivity.
Qed.

(** C8.  On every path of [_macb_send] the buffer mapped at entry is
    unmapped: the events of a call are the mapping of [packet], the ring
    flush, the polls (invalidates and delays only), then the unmapping of
    the address [dma_map_single] returned, with the same length, and after
    it nothing but console messages. *)
Theorem macb_send_always_unmaps `{macb_h} (hw : Z -> Z) (m : macb_device)
    (name : string) (packet length : Z) :
  exists polls messages,
    events (fst (_macb_send hw m name packet length))
    = events m
      ++ [EvDmaMap packet length;
          EvFlush (tx_ring_dma m)
                  (tx_ring_dma m + ALIGN MACB_TX_DMA_DESC_SIZE PKTALIGN)]
      ++ polls
      ++ [EvDmaUnmap (dma_map_single packet length) length]
      ++ messages
    /\ Forall poll_event polls
    /\ Forall printf_event messages.
Proof.
  destruct (macb_send_submit m packet length) as [[[m1 paddr] head] c0] eqn:Hs.
  pose proof (macb_send_submit_events m packet length) as Hev1.
  assert (Hpaddr : paddr = dma_map_single packet length).
  { rewrite macb_send_submit_eq in Hs. congruence. }
  rewrite Hs in Hev1. cbn [fst] in Hev1.
  destruct (macb_send_poll (Z.to_nat (MACB_TX_TIMEOUT + 1)) hw m1 head 0 c0)
    as [[m2 i] c] eqn:Hp.
  pose proof (macb_send_poll_inv (Z.to_nat (MACB_TX_TIMEOUT + 1)) hw m1 head 0
                c0) as Hinv.
  rewrite Hp in Hinv. destruct Hinv as (_ & _ & _ & _ & polls & He & Hpolls).
  cbn [fst] in He.
  rewrite (macb_send_structure hw m name packet length _ _ _ _ _ _ _ Hs Hp).
  exists polls, (send_messages name i c).
  split; [|split; [assumption|apply send_messages_printf]].
  cbn [fst events with_events]. rewrite He, Hev1, Hpaddr.
  now rewrite <- !app_assoc.
Qed.

(** C3.  A call of [_macb_send] writes exactly one descriptor, the one at
    the producer index [tx_head] (ring entry [tx_head], or entries
    [2 * tx_head] and [2 * tx_head + 1] with 64-bit addressing).  The
    control word handed to the controller holds the length masked to the
    11-bit field, the last-buffer flag, the wrap flag exactly when
    [tx_head = MACB_TX_RING_SIZE - 1], and no other bit; the address words
    hold the mapped address.  Every other ring entry is as before, also
    after the polling (which only brings in the controller's status of
    that same descriptor), and the producer index has advanced by one
    modulo [MACB_TX_RING_SIZE]. *)
Theorem macb_send_writes_one_descriptor `{macb_h} (hw : Z -> Z)
    (m : macb_device) (name : string) (packet length : Z) :
  tx_flags_ok ->
  0 <= tx_head m < MACB_TX_RING_SIZE ->
  List.length (tx_ring m)
  = Z.to_nat (MACB_TX_DMA_DESC_SIZE / sizeof_macb_dma_desc) ->
  let slot := tx_slot m in
  let paddr := dma_map_single packet length in
  let submitted := fst (fst (fst (macb_send_submit m packet length))) in
  let m' := fst (_macb_send hw m name packet length) in
  let d := desc_at (tx_ring submitted) slot in
  (Z.land (ctrl d) TXBUF_FRMLEN_MASK = Z.land length TXBUF_FRMLEN_MASK
   /\ Z.testbit (ctrl d) MACB_TX_LAST_OFFSET = true
   /\ (Z.testbit (ctrl d) MACB_TX_WRAP_OFFSET = true
       <-> tx_head m = MACB_TX_RING_SIZE - 1)
   /\ (forall b, 11 <= b -> b <> MACB_TX_LAST_OFFSET ->
                 b <> MACB_TX_WRAP_OFFSET -> Z.testbit (ctrl d) b = false)
   /\ addr d = lower_32_bits paddr
   /\ (dma_cap_64b m = true ->
       desc_at (tx_ring submitted) (slot + 1)
       = Desc (upper_32_bits paddr) (ctrl (desc_at (tx_ring m) (slot + 1)))))
  /\ (forall k : nat,
        k <> Z.to_nat slot ->
        (dma_cap_64b m = true -> k <> Z.to_nat (slot + 1)) ->
        tx_ring submitted !! k = tx_ring m !! k)
  /\ (forall k : nat, k <> Z.to_nat slot ->
        tx_ring m' !! k = tx_ring submitted !! k)
  /\ addr (desc_at (tx_ring m') slot) = lower_32_bits paddr
  /\ tx_head submitted = (tx_head m + 1) mod MACB_TX_RING_SIZE
  /\ tx_head m' = (tx_head m + 1) mod MACB_TX_RING_SIZE.
Proof.
  intros Hflags Hhead Hlen slot paddr submitted m' d.
  unfold MACB_TX_RING_SIZE in Hhead.
  change (Z.to_nat (MACB_TX_DMA_DESC_SIZE / sizeof_macb_dma_desc))
    with 32%nat in Hlen.
  assert (Hslot : (if dma_cap_64b m then u32 (tx_head m * 2) else tx_head m)
                  = slot).
  { unfold slot, tx_slot. destruct (dma_cap_64b m); [|reflexivity].
    rewrite u32_small; lia. }
  pose proof (macb_send_submit_eq m packet length) as Hs.
  rewrite Hslot in Hs. fold paddr in Hs.
  assert (Hring : tx_ring submitted
                  = macb_set_addr m
                      (alter (fun d => Desc (addr d) (u32 (tx_ctrl (tx_head m) length)))
                             (Z.to_nat slot) (tx_ring m)) slot paddr).
  { unfold submitted. rewrite Hs. reflexivity. }
  assert (Hth : tx_head submitted = (tx_head m + 1) mod MACB_TX_RING_SIZE).
  { unfold submitted. rewrite Hs. cbn [fst]. unfold MACB_TX_RING_SIZE.
    change (tx_head (writel _ _ (macb_flush_ring_desc TX
              (with_tx_ring ?r (with_tx_head ?v _))))) with v.
    destruct (Z.eqb_spec (tx_head m) (16 - 1)) as [->|Hne]; [reflexivity|].
    rewrite u32_small, Z.mod_small by lia. reflexivity. }
  assert (Hsl : 0 <= slot /\ (Z.to_nat slot < 32)%nat
                /\ (dma_cap_64b m = true -> (Z.to_nat (slot + 1) < 32)%nat)).
  { unfold slot, tx_slot.
    destruct (dma_cap_64b m); repeat split; try lia; intros; try discriminate. }
  destruct Hsl as (Hs0 & Hs1 & Hs2).
  (* the written descriptor *)
  assert (Hd : d = Desc (lower_32_bits paddr) (tx_ctrl (tx_head m) length)).
  { unfold d, desc_at. rewrite Hring. unfold macb_set_addr.
    rewrite list_lookup_total_alter_eq.
    2:{ destruct (dma_cap_64b m); rewrite ?length_alter; lia. }
    f_equal. destruct (dma_cap_64b m).
    - rewrite list_lookup_total_alter_ne by lia.
      rewrite list_lookup_total_alter_eq by lia. simpl.
      apply u32_small, tx_ctrl_range, Hflags.
    - rewrite list_lookup_total_alter_eq by lia. simpl.
      apply u32_small, tx_ctrl_range, Hflags. }
  (* the polling loop *)
  destruct (macb_send_poll (Z.to_nat (MACB_TX_TIMEOUT + 1)) hw submitted slot 0
              (tx_ctrl (tx_head m) length)) as [[m2 i] c] eqn:Hp.
  pose proof (macb_send_poll_inv (Z.to_nat (MACB_TX_TIMEOUT + 1)) hw submitted
                slot 0 (tx_ctrl (tx_head m) length)) as Hinv.
  rewrite Hp in Hinv. cbn [fst] in Hinv.
  destruct Hinv as (T2 & _ & R2 & A2 & _).
  assert (Hm' : tx_ring m' = tx_ring m2 /\ tx_head m' = tx_head m2).
  { unfold m'. unfold submitted in Hp. rewrite Hs in Hp. cbn [fst] in Hp.
    rewrite (macb_send_structure hw m name packet length _ _ _ _ _ _ _ Hs Hp).
    split; reflexivity. }
  destruct Hm' as [Hr' Ht'].
  destruct Hflags as (HL & HW & Hne).
  pose proof (conj HL (conj HW Hne) : tx_flags_ok) as Hflags.
  split; [|split; [|split; [|split; [|split]]]].
  - rewrite Hd. cbn [ctrl addr]. split; [|split; [|split; [|split; [|split]]]].
    + apply Z.bits_inj'. intros b Hb.
      rewrite !Z.land_spec, tx_ctrl_testbit by (auto; lia).
      unfold TXBUF_FRMLEN_MASK. change 2047 with (Z.ones 11).
      rewrite Z.testbit_ones_nonneg by lia.
      destruct (Z.ltb_spec b 11); [|now rewrite !andb_false_r].
      destruct (Z.eqb_spec MACB_TX_LAST_OFFSET b); [lia|].
      destruct (Z.eqb_spec MACB_TX_WRAP_OFFSET b); [lia|].
      now rewrite !andb_true_r, andb_false_r, !orb_false_r.
    + rewrite tx_ctrl_testbit by (auto; lia).
      rewrite Z.eqb_refl. now rewrite orb_true_r.
    + rewrite tx_ctrl_testbit by (auto; lia).
      destruct (Z.ltb_spec MACB_TX_WRAP_OFFSET 11); [lia|].
      destruct (Z.eqb_spec MACB_TX_LAST_OFFSET MACB_TX_WRAP_OFFSET); [lia|].
      rewrite Z.eqb_refl, andb_false_r, andb_true_r. simpl.
      unfold MACB_TX_RING_SIZE.
      destruct (Z.eqb_spec (tx_head m) (16 - 1)); split; intros; (lia || easy).
    + intros b Hb HbL HbW. rewrite tx_ctrl_testbit by (auto; lia).
      destruct (Z.ltb_spec b 11); [lia|].
      destruct (Z.eqb_spec MACB_TX_LAST_OFFSET b); [congruence|].
      destruct (Z.eqb_spec MACB_TX_WRAP_OFFSET b); [congruence|].
      now rewrite !andb_false_r.
    + reflexivity.
    + intros Hcap. unfold desc_at. rewrite Hring. unfold macb_set_addr.
      rewrite Hcap.
      rewrite list_lookup_total_alter_ne by lia.
      rewrite list_lookup_total_alter_eq by (rewrite length_alter, Hlen; auto).
      rewrite list_lookup_total_alter_ne by lia. reflexivity.
  - intros k Hk Hk'. rewrite Hring. unfold macb_set_addr.
    rewrite list_lookup_alter_ne by congruence.
    destruct (dma_cap_64b m).
    + rewrite list_lookup_alter_ne by (specialize (Hk' eq_refl); congruence).
      now rewrite list_lookup_alter_ne by congruence.
    + now rewrite list_lookup_alter_ne by congruence.
  - intros k Hk. rewrite Hr'. now apply R2.
  - rewrite Hr', A2. fold d. now rewrite Hd.
  - exact Hth.
  - now rewrite Ht', T2.
Qed.

Lemma macb_send_writes_one_descriptor_witness :
  tx_flags_ok (h := example_h)
  /\ (0 <= tx_head (example_device 1 128) < MACB_TX_RING_SIZE)
  /\ List.length (tx_ring (example_device 1 128))
     = Z.to_nat (MACB_TX_DMA_DESC_SIZE / sizeof_macb_dma_desc)
  /\ tx_head (fst (_macb_send (h := example_h) (fun _ => 2147483648)
                     (example_device 1 128) "eth0" 65536 60))
     = (tx_head (example_device 1 128) + 1) mod MACB_TX_RING_SIZE.
Proof.
  assert (H1 : tx_flags_ok (h := example_h)) by (unfold tx_flags_ok; simpl; lia).
  assert (H2 : 0 <= tx_head (example_device 1 128) < MACB_TX_RING_SIZE)
    by (simpl; unfold MACB_TX_RING_SIZE; lia).
  assert (H3 : List.length (tx_ring (example_device 1 128))
               = Z.to_nat (MACB_TX_DMA_DESC_SIZE / sizeof_macb_dma_desc))
    by reflexivity.
  split; [exact H1|]. split; [exact H2|]. split; [exact H3|].
  exact (proj2 (proj2 (proj2 (proj2 (proj2
           (macb_send_writes_one_descriptor (H := example_h)
              (fun _ => 2147483648) (example_device 1 128) "eth0" 65536 60
              H1 H2 H3)))))).
Defined.

(** ** Transmit timeout *)

Section SendTimeout.
Context {h : macb_h}.

(** One round of polling that does not see TX_USED. *)
Definition poll_round (m : macb_device) : list event :=
  [EvInvalidate (tx_ring_dma m)
     (ALIGN (tx_ring_dma m + MACB_TX_DMA_DESC_SIZE) PKTALIGN);
   EvUdelay 1].

Lemma macb_send_poll_stuck (n : nat) (hw : Z -> Z) m head i c :
  0 <= head -> (Z.to_nat head < List.length (tx_ring m))%nat ->
  (forall j, i <= j < i + Z.of_nat n ->
     Z.land (u32 (hw j)) (MACB_BIT MACB_TX_USED_OFFSET) = 0) ->
  exists m' c',
    macb_send_poll n hw m head i c = (m', i + Z.of_nat n, c')
    /\ events m' = events m ++ concat (replicate n (poll_round m)).
Proof.
  intros Hh. revert m i c.
  induction n as [|n IH]; intros m i c Hlen Hhw; cbn [macb_send_poll].
  - exists m, c. split; [now rewrite Z.add_0_r|].
    simpl. now rewrite app_nil_r.
  - set (m1 := with_tx_ring _ (macb_invalidate_ring_desc TX m)).
    assert (Hc : ctrl (desc_at (tx_ring m1) head) = u32 (hw i)).
    { unfold m1, desc_at. cbn [tx_ring with_tx_ring].
      rewrite list_lookup_total_alter_eq by exact Hlen. reflexivity. }
    rewrite Hc, (Hhw i) by lia. cbn [Z.eqb negb].
    destruct (IH (log (EvUdelay 1) m1) (i + 1) (u32 (hw i))) as (m' & c' & E & Ev).
    + unfold m1. cbn [tx_ring log with_events with_tx_ring].
      rewrite length_alter. exact Hlen.
    + intros j Hj. apply Hhw. lia.
    + exists m', c'. split.
      * rewrite E. do 2 f_equal. lia.
      * rewrite Ev. cbn [replicate concat]. unfold poll_round.
        cbn [events log with_events m1 with_tx_ring macb_invalidate_ring_desc
             TX tx_ring_dma].
        unfold m1, log, with_events, macb_invalidate_ring_desc, TX.
        cbn [events tx_ring_dma with_tx_ring]. unfold log, with_events.
        cbn [events tx_ring_dma]. rewrite <- !app_assoc. reflexivity.
Qed.

End SendTimeout.

(** C4 (as the code has it).  When none of the [MACB_TX_TIMEOUT + 1] polls
    (each followed by a one-microsecond delay) finds TX_USED set in the
    submitted descriptor, [_macb_send] unmaps the buffer, reports the
    condition on the console (["<name>: TX timeout"]) and returns 0, the
    value it returns for every other answer of the controller: the caller
    cannot tell a timeout from a transmission that completed. *)
Theorem macb_send_timeout_only_logged `{macb_h} (hw : Z -> Z)
    (m : macb_device) (name : string) (packet length : Z) :
  0 <= tx_head m < MACB_TX_RING_SIZE ->
  List.length (tx_ring m)
  = Z.to_nat (MACB_TX_DMA_DESC_SIZE / sizeof_macb_dma_desc) ->
  (forall i, 0 <= i <= MACB_TX_TIMEOUT ->
     Z.land (u32 (hw i)) (MACB_BIT MACB_TX_USED_OFFSET) = 0) ->
  let m' := fst (_macb_send hw m name packet length) in
  let ret := snd (_macb_send hw m name packet length) in
  events m'
  = events m
    ++ [EvDmaMap packet length;
        EvFlush (tx_ring_dma m)
                (tx_ring_dma m + ALIGN MACB_TX_DMA_DESC_SIZE PKTALIGN)]
    ++ concat (replicate (Z.to_nat (MACB_TX_TIMEOUT + 1)) (poll_round m))
    ++ [EvDmaUnmap (dma_map_single packet length) length;
        EvPrintf (name ++ ": TX timeout" ++ LF)]
  /\ ret = 0
  /\ forall hw', snd (_macb_send hw' m name packet length) = ret.
Proof.
  intros Hhead Hlen Hstuck m' ret. unfold MACB_TX_RING_SIZE in Hhead.
  change (Z.to_nat (MACB_TX_DMA_DESC_SIZE / sizeof_macb_dma_desc))
    with 32%nat in Hlen.
  split; [|unfold ret; split; [apply macb_send_snd|]].
  2:{ intros hw'. now rewrite !macb_send_snd. }
  pose proof (macb_send_submit_events m packet length) as Hev1.
  pose proof (macb_send_submit_dma m packet length) as Hdma.
  pose proof (macb_send_submit_eq m packet length) as Hs.
  set (slot := if dma_cap_64b m then u32 (tx_head m * 2) else tx_head m) in *.
  assert (Hslot : 0 <= slot /\ (Z.to_nat slot < 32)%nat).
  { unfold slot. destruct (dma_cap_64b m); [rewrite u32_small|]; lia. }
  assert (Hlen1 : List.length
                    (tx_ring (fst (fst (fst (macb_send_submit m packet length)))))
                  = 32%nat).
  { rewrite Hs. cbn [fst]. unfold macb_set_addr.
    change (tx_ring (writel _ _ (macb_flush_ring_desc TX (with_tx_ring ?r _))))
      with r.
    destruct (dma_cap_64b m); rewrite !length_alter; exact Hlen. }
  set (m1 := writel _ _ _) in Hs.
  rewrite Hs in Hev1, Hdma, Hlen1. cbn [fst] in Hev1, Hdma, Hlen1.
  clearbody m1.
  destruct (macb_send_poll_stuck (Z.to_nat (MACB_TX_TIMEOUT + 1)) hw m1 slot 0
              (tx_ctrl (tx_head m) length)) as (m2 & c & Hp & Hev).
  { lia. } { rewrite Hlen1. lia. }
  { intros j Hj. apply Hstuck. unfold MACB_TX_TIMEOUT in *. lia. }
  unfold m'.
  rewrite (macb_send_structure hw m name packet length _ _ _ _ _ _ _ Hs Hp).
  cbn [fst events with_events]. rewrite Hev.
  unfold send_messages.
  replace (0 + Z.of_nat (Z.to_nat (MACB_TX_TIMEOUT + 1)) <=? MACB_TX_TIMEOUT)
    with false by reflexivity.
  unfold poll_round. rewrite Hev1, Hdma. rewrite <- !app_assoc. reflexivity.
Qed.

Lemma macb_send_timeout_only_logged_witness :
  (0 <= tx_head (example_device 1 128) < MACB_TX_RING_SIZE)
  /\ List.length (tx_ring (example_device 1 128))
     = Z.to_nat (MACB_TX_DMA_DESC_SIZE / sizeof_macb_dma_desc)
  /\ (forall i, 0 <= i <= MACB_TX_TIMEOUT ->
        Z.land (u32 ((fun _ => 0) i))
               (MACB_BIT (MACB_TX_USED_OFFSET (macb_h := example_h))) = 0)
  /\ snd (_macb_send (h := example_h) (fun _ => 0) (example_device 1 128)
            "eth0" 65536 60) = 0.
Proof.
  assert (H1 : 0 <= tx_head (example_device 1 128) < MACB_TX_RING_SIZE)
    by (simpl; unfold MACB_TX_RING_SIZE; lia).
  assert (H2 : List.length (tx_ring (example_device 1 128))
               = Z.to_nat (MACB_TX_DMA_DESC_SIZE / sizeof_macb_dma_desc))
    by reflexivity.
  assert (H3 : forall i, 0 <= i <= MACB_TX_TIMEOUT ->
                 Z.land (u32 ((fun _ => 0) i))
                        (MACB_BIT (MACB_TX_USED_OFFSET (macb_h := example_h))) = 0)
    by (intros; reflexivity).
  split; [exact H1|]. split; [exact H2|]. split; [exact H3|].
  exact (proj1 (proj2
           (macb_send_timeout_only_logged (H := example_h) (fun _ => 0)
              (example_device 1 128) "eth0" 65536 60 H1 H2 H3))).
Defined.

(** A timeout is not returned: with a controller that never sets TX_USED
    the call logs the timeout and returns 0, exactly what it returns when
    the controller completes the frame at the first poll. *)
Lemma macb_send_timeout_returns_success :
  let stuck := _macb_send (h := example_h) (fun _ => 0)
                 (example_device 1 128) "eth0" 65536 60 in
  let sent := _macb_send (h := example_h) (fun _ => 2147483648)
                (example_device 1 128) "eth0" 65536 60 in
  last (events (fst stuck)) = Some (EvPrintf ("eth0: TX timeout" ++ LF))
  /\ last (events (fst sent)) = Some (EvDmaUnmap 65536 60)
  /\ snd stuck = 0 /\ snd sent = 0 /\ snd stuck = snd sent.
Proof. vm_compute. repeat split. Qed.

(** ** Receive *)

Section Recv.
Context {h : macb_h}.

(** The descriptor under the scan cursor and its FILLED state. *)
Definition rx_cursor_desc (m : macb_device) (next : Z) : macb_dma_desc :=
  desc_at (rx_ring m) (if dma_cap_64b m then u32 (next * 2) else next).

Definition rx_filled (d : macb_dma_desc) : bool :=
  negb (Z.land (addr d) (MACB_BIT MACB_RX_USED_OFFSET) =? 0).

(** The loop states a call goes through: [recv_scan m n f m' n' f'] when
    the loop started with device [m] and locals [n], [f] comes round to
    its head with [m'], [n'], [f']. *)
Inductive recv_scan :
  macb_device -> Z -> bool -> macb_device -> Z -> bool -> Prop :=
  | recv_scan_here m n f : recv_scan m n f m n f
  | recv_scan_round m n f m1 n1 f1 m2 n2 f2 :
      macb_recv_body m n f = RecvAgain m1 n1 f1 ->
      recv_scan m1 n1 f1 m2 n2 f2 ->
      recv_scan m n f m2 n2 f2.

Lemma macb_recv_loop_scan fuel m n f m' ret p :
  macb_recv_loop fuel m n f = Some (m', ret, p) ->
  exists m1 n1 f1,
    recv_scan m n f m1 n1 f1
    /\ macb_recv_body m1 n1 f1 = RecvReturn m' ret p.
Proof.
  revert m n f. induction fuel as [|fuel IH]; intros m n f; [discriminate|].
  cbn [macb_recv_loop].
  destruct (macb_recv_body m n f) as [m0 ret0 p0|m1 n1 f1] eqn:Hb.
  - intros [= -> -> ->]. exists m, n, f. split; [constructor|exact Hb].
  - intros Hl. destruct (IH _ _ _ Hl) as (m2 & n2 & f2 & Hs & Hr).
    exists m2, n2, f2. split; [|exact Hr]. econstructor; eauto.
Qed.

Lemma land_frmlen_range status :
  0 <= Z.land status RXBUF_FRMLEN_MASK <= RXBUF_FRMLEN_MASK.
Proof.
  unfold RXBUF_FRMLEN_MASK. change 4095 with (Z.ones 12).
  rewrite Z.land_ones by lia.
  pose proof (Z.mod_pos_bound status (2 ^ 12) ltac:(lia)).
  change (Z.ones 12) with (2 ^ 12 - 1). lia.
Qed.

(** A round at a descriptor that is not FILLED returns [-EAGAIN]. *)
Lemma macb_recv_body_not_filled m next flag :
  rx_filled (rx_cursor_desc m next) = false ->
  macb_recv_body m next flag
  = RecvReturn (macb_invalidate_ring_desc RX m) (- EAGAIN) None.
Proof.
  intros Hf. unfold macb_recv_body.
  assert (E : (Z.land (addr (desc_at (rx_ring (macb_invalidate_ring_desc RX m))
                 (if dma_cap_64b (macb_invalidate_ring_desc RX m)
                  then u32 (next * 2) else next)))
                 (MACB_BIT MACB_RX_USED_OFFSET) =? 0) = true).
  { apply negb_false_iff. exact Hf. }
  now rewrite E.
Qed.

(** A round at a FILLED descriptor goes round again or returns a frame:
    a length of at most [RXBUF_FRMLEN_MASK] and a packet pointer. *)
Lemma macb_recv_body_filled m next flag :
  rx_filled (rx_cursor_desc m next) = true ->
  match macb_recv_body m next flag with
  | RecvReturn _ ret p => 0 <= ret <= RXBUF_FRMLEN_MASK /\ is_Some p
  | RecvAgain _ _ _ => True
  end.
Proof.
  intros Hf. unfold macb_recv_body.
  assert (E : (Z.land (addr (desc_at (rx_ring (macb_invalidate_ring_desc RX m))
                 (if dma_cap_64b (macb_invalidate_ring_desc RX m)
                  then u32 (next * 2) else next)))
                 (MACB_BIT MACB_RX_USED_OFFSET) =? 0) = false).
  { apply negb_true_iff. exact Hf. }
  rewrite E.
  repeat match goal with
         | |- context [if ?b then _ else _] => destruct b
         | |- context [let '(_, _) := ?x in _] => destruct x
         end;
    try exact I; (split; [apply land_frmlen_range|eexists; reflexivity]).
Qed.

End Recv.

(** C7.  A round of the receive loop returns [-EAGAIN] (and stores no
    packet pointer) exactly when the descriptor under the scan cursor is
    not FILLED, that is, its RX_USED bit is clear; at a FILLED descriptor
    it goes on scanning or returns a frame, a length between 0 and
    [RXBUF_FRMLEN_MASK] with a packet pointer.  So whatever [_macb_recv]
    returns was returned at some cursor position of its scan, and is
    [-EAGAIN] if the descriptor there is not FILLED and a frame with its
    length otherwise; there is no third result.  At a cursor whose
    descriptor is not FILLED on entry the call does return, at once. *)
Theorem macb_recv_no_packet_or_frame `{macb_h} :
  0 < EAGAIN ->
  (forall m next flag,
     match macb_recv_body m next flag with
     | RecvReturn _ ret p =>
         (ret = - EAGAIN <-> rx_filled (rx_cursor_desc m next) = false)
         /\ ((ret = - EAGAIN /\ p = None)
             \/ (0 <= ret <= RXBUF_FRMLEN_MASK /\ is_Some p))
     | RecvAgain _ _ _ => rx_filled (rx_cursor_desc m next) = true
     end)
  /\ (forall fuel m m' ret p,
        _macb_recv fuel m = Some (m', ret, p) ->
        exists m1 next flag,
          recv_scan (with_wrapped false m) (next_rx_tail m) false m1 next flag
          /\ macb_recv_body m1 next flag = RecvReturn m' ret p
          /\ (ret = - EAGAIN <-> rx_filled (rx_cursor_desc m1 next) = false)
          /\ ((ret = - EAGAIN /\ p = None)
              \/ (0 <= ret <= RXBUF_FRMLEN_MASK /\ is_Some p)))
  /\ (forall fuel m,
        rx_filled (rx_cursor_desc m (next_rx_tail m)) = false ->
        _macb_recv (S fuel) m
        = Some (macb_invalidate_ring_desc RX (with_wrapped false m),
                - EAGAIN, None)).
Proof.
  intros Hpos.
  assert (Hbody : forall m next flag,
     match macb_recv_body m next flag with
     | RecvReturn _ ret p =>
         (ret = - EAGAIN <-> rx_filled (rx_cursor_desc m next) = false)
         /\ ((ret = - EAGAIN /\ p = None)
             \/ (0 <= ret <= RXBUF_FRMLEN_MASK /\ is_Some p))
     | RecvAgain _ _ _ => rx_filled (rx_cursor_desc m next) = true
     end).
  { intros m next flag.
    destruct (rx_filled (rx_cursor_desc m next)) eqn:Hf.
    - pose proof (macb_recv_body_filled m next flag Hf) as Hb.
      destruct (macb_recv_body m next flag) as [m0 ret p|]; [|reflexivity].
      destruct Hb as [Hret Hp]. split; [|now right].
      split; [lia|discriminate].
    - rewrite (macb_recv_body_not_filled m next flag Hf).
      split; [tauto|now left]. }
  split; [exact Hbody|]. split.
  - intros fuel m m' ret p Hr. unfold _macb_recv in Hr.
    destruct (macb_recv_loop_scan _ _ _ _ _ _ _ Hr) as (m1 & n1 & f1 & Hs & Hb).
    exists m1, n1, f1. split; [exact Hs|]. split; [exact Hb|].
    pose proof (Hbody m1 n1 f1) as Hm. now rewrite Hb in Hm.
  - intros fuel m Hf. unfold _macb_recv. cbn [macb_recv_loop].
    now rewrite macb_recv_body_not_filled.
Qed.

Lemma macb_recv_no_packet_or_frame_witness :
  0 < EAGAIN (macb_h := example_h)
  /\ _macb_recv (h := example_h) 1 (example_device 1 128)
     = Some (macb_invalidate_ring_desc (h := example_h) RX
               (with_wrapped false (example_device 1 128)),
             - EAGAIN (macb_h := example_h), None).
Proof.
  assert (H1 : 0 < EAGAIN (macb_h := example_h)) by (simpl; lia).
  split; [exact H1|].
  exact (proj2 (proj2 (macb_recv_no_packet_or_frame (H := example_h) H1))
           0%nat (example_device 1 128) eq_refl).
Defined.

(** ** Frames across the end of the ring *)

(** Modelled from the spec: the controller is hardware, not code of the
    driver.  It stores a received frame in consecutive slots of the buffer
    pool, starting at byte [start] of the pool, and goes on at the start
    of the pool after its last slot. *)
Definition dma_write_frame (pool : list Byte.byte) (start : Z)
    (frame : list Byte.byte) : list Byte.byte :=
  let room := (length pool - Z.to_nat start)%nat in
  list_inserts 0 (drop room frame)
               (list_inserts (Z.to_nat start) (take room frame) pool).

Section RecvFrame.
Context {h : macb_h}.




End RecvFrame.

Section RecvEof.
Context {h : macb_h}.






End RecvEof.


(** *** A frame of 200 bytes in slots 31 and 0 *)

(** Bytes 0, 1, ..., 199. *)
Definition example_frame : list Byte.byte :=
  (fun i => default Byte.x00 (Strings.Byte.of_nat i)) <$> seq 0 200.

(** The device of [example_device] with the reclaim tail at the last
    descriptor, after the controller has received [example_frame] there:
    descriptor 31 is FILLED and starts the frame, descriptor 0 is FILLED,
    ends it and carries its length. *)
Definition wrap_example (flag_set : bool) : macb_device :=
  let m := example_device 1 128 in
  {| config := config m;
     rx_tail := 31; tx_head := 0; tx_tail := 0; next_rx_tail := 31;
     wrapped := flag_set;
     rx_buffer := dma_write_frame (rx_buffer m) (128 * 31) example_frame;
     rx_ring :=
       alter (fun d => Desc (Z.lor (addr d) 1) (32768 + 200)) 0%nat
         (alter (fun d => Desc (Z.lor (addr d) 1) 16384) 62%nat (rx_ring m));
     tx_ring := tx_ring m;
     rx_buffer_size := 128;
     rx_buffer_dma := rx_buffer_dma m;
     rx_ring_dma := rx_ring_dma m;
     tx_ring_dma := tx_ring_dma m;
     dummy_desc := dummy_desc m;
     dummy_desc_dma := dummy_desc_dma m;
     regs := regs m;
     net_rx_packets0 := net_rx_packets0 m;
     events := []
  |}.


(** The whole path on that device: a receive scans descriptor 31, sets the
    wrapped flag on passing the end of the ring, finds the end of the
    frame in descriptor 0 and returns the 200 bytes assembled in
    [net_rx_packets[0]], with the cursor at 1; releasing the frame then
    moves the reclaim tail to 1 and clears the ownership bits of the cache
    line that descriptor 31 completes (descriptors 28 to 31), not that of
    descriptor 0. *)
Example macb_recv_200_bytes_across_ring_end :
  match macb_recv (h := example_h) 2 (wrap_example false) with
  | Some (m', ret, p) =>
      ret = 200 /\ p = Some InNetRxPackets0
      /\ take 200 (net_rx_packets0 m') = example_frame
      /\ wrapped m' = true /\ next_rx_tail m' = 1
      /\ let m'' := fst (macb_free_pkt (h := example_h) m') in
         rx_tail m'' = 1
         /\ rx_filled (h := example_h) (desc_at (rx_ring m'') 62) = false
         /\ rx_filled (h := example_h) (desc_at (rx_ring m'') 0) = true
  | None => False
  end.
Proof. vm_compute. repeat split. Qed.

(** ** Multi-queue set-up *)

Section Queues.
Context {h : macb_h}.

(** Everything but the register block. *)
Definition regs_frame (m m' : macb_device) : Prop :=
  config m' = config m /\ dummy_desc m' = dummy_desc m
  /\ dummy_desc_dma m' = dummy_desc_dma m /\ events m' = events m
  /\ rx_ring m' = rx_ring m /\ tx_ring m' = tx_ring m
  /\ rx_tail m' = rx_tail m /\ tx_head m' = tx_head m
  /\ next_rx_tail m' = next_rx_tail m.





Lemma dma_cap_64b_frame m m' : regs_frame m m' -> dma_cap_64b m' = dma_cap_64b m.
Proof. intros (Hc & _). unfold dma_cap_64b. now rewrite Hc. Qed.


(** *** The first loop: all optional queues disabled *)




(** *** The second loop: dummy descriptor and segments of the queues in
    the mask *)






End Queues.

Section QueueMask.
Context {h : macb_h}.








End QueueMask.



(** ** Segment allocation *)

(** The four-bit field at nibble position [k] of a register value. *)
Definition nibble (k x : Z) : Z := Z.land (Z.shiftr x (4 * k)) 15.

Section Segments.
Context {h : macb_h}.











End Segments.





(** The second loop runs over the indices below the number of active
    queues.  With a capability register reporting queues 1 and 3 there are
    three active queues, the loop ends at index 2, and queue 3 is not
    reached: it is left disabled and without a nibble. *)
Example gmac_init_sparse_queue_mask :
  let m := example_device_with (Config 1 31 true true) 2048 10 in
  let m' := fst (gmac_init_multi_queues (h := example_h) m) in
  Z.testbit (gmac_queue_mask m) 3 = true
  /\ gmac_num_queues (h := example_h) (gmac_queue_mask m) = 3
  /\ regs m' (TBQP_Q (3 - 1)) = 1
  /\ regs m' SEG_ALLOC_LOWER = 32
  /\ nibble 1 (regs m' SEG_ALLOC_LOWER) = 2
  /\ nibble 3 (regs m' SEG_ALLOC_LOWER) = 0.
Proof. vm_compute. repeat split. Qed.
